(** * EvmModule: the [evm_*] JSON-RPC methods of the Hardhat network provider

    A shallow embedding of
    [packages/hardhat-core/src/internal/hardhat-network/provider/modules/evm.ts]
    and the properties of its dispatcher, parameter defaulting and
    timestamp checks.

    The module is a thin layer over a [HardhatNode]: every method decodes
    its parameters, checks them against the head block where needed, and
    calls the node.  The embedding keeps that shape: the methods are
    written in a monad of node state, node-call log and exceptions, and
    the node itself is an interface (a type class) the theorems quantify
    over. *)

From Stdlib Require Import ZArith List String Ascii Bool Lia.
From Stdlib Require Import DecimalString HexadecimalString.
From Stdlib Require HexadecimalPos.
From ExtLib Require Import Structures.Monad Structures.MonadExc.
From ExtLib Require Import Data.Monads.StateMonad Data.Monads.EitherMonad.
Import ListNotations MonadNotation.

Local Open Scope string_scope.
Local Open Scope Z_scope.
Local Open Scope monad_scope.

(** ** Errors and results *)

Inductive RpcError : Type :=
| InvalidInputError (message : string)
| MethodNotFoundError (message : string)
| AssertionError (message : string).

Definition Result (A : Type) : Type := (RpcError + A)%type.

Definition isInvalidInput {A} (r : Result A) : Prop :=
  exists message, r = inl (InvalidInputError message).

(** ** Numbers

    A value of TypeScript type [number] is modelled by the integer it
    holds, of any size; fractions, NaN and the infinities are outside the
    model.  [BN] is bn.js's arbitrary-precision integer.  The two meet at
    [2^53] ([0x20000000000000]): bn.js takes a [number] only below that
    magnitude, and gives one back only below it. *)

Definition SAFE_BOUND : Z := 2 ^ 53.

Definition isSafeInteger (z : Z) : bool := Z.abs z <? SAFE_BOUND.

Record number : Type := mkNumber { nval : Z }.

Definition BN : Type := Z.

(** Modelled from the spec: [new BN(n)] for a [number] belongs to bn.js,
    which is not part of the sources.  The constructor asserts that the
    magnitude of [n] is below [0x20000000000000] and throws a plain error
    otherwise. *)
Definition newBN (n : number) : Result BN :=
  if isSafeInteger (nval n) then inr (nval n)
  else inl (AssertionError "Assertion failed").

(** The literals [0] of the source. *)
Definition zero : number := mkNumber 0.

(** Modelled from the spec: [BN.prototype.toNumber] belongs to bn.js, which
    is not part of the sources.  It returns the value as a [number] when it
    fits 53 bits and fails its assertion otherwise. *)
Definition toNumber (b : BN) : Result number :=
  if isSafeInteger b then inr (mkNumber b)
  else inl (AssertionError "Number can only safely store up to 53 bits").

(** ** Printing

    [Number.prototype.toString()] and [BN.prototype.toString()] print in
    base ten; template literals do the same for a [number]. *)

Definition decimal (z : Z) : string :=
  DecimalString.NilZero.string_of_int (Z.to_int z).

Definition hexadecimal (z : Z) : string :=
  HexadecimalString.NilZero.string_of_int (Z.to_hex_int z).

(** Modelled from the spec: [numberToRpcQuantity] lives in [../output],
    which is not part of the sources.  It renders a number as a hex
    quantity, [0x] followed by the base-sixteen digits. *)
Definition numberToRpcQuantity (n : number) : string :=
  "0x" ++ hexadecimal (nval n).

(** ** Request parameters

    [params: any[]] is a list of loosely typed JSON values. *)

#[warnings="-register-all"]
Inductive JsValue : Type :=
| JsNull
| JsBoolean (b : bool)
| JsNumber (n : number)
| JsString (s : string)
| JsArray (elements : list JsValue).

(** A decoder of one positional parameter (an io-ts type). *)
Definition Codec (A : Type) : Type := JsValue -> option A.

(** Modelled from the spec: [t.number] accepts a numeric argument. *)
Definition t_number : Codec number := fun v =>
  match v with
  | JsNumber n => Some n
  | _ => None
  end.

Fixpoint decodeAll {A} (c : Codec A) (vs : list JsValue) : option (list A) :=
  match vs with
  | [] => Some []
  | v :: rest =>
      match c v, decodeAll c rest with
      | Some a, Some l => Some (a :: l)
      | _, _ => None
      end
  end.

(** Modelled from the spec: the second parameter of [evm_mineMultiple] is
    "a sequence of numerics"; the action receives it as [number[]]. *)
Definition t_Array : Codec (list number) := fun v =>
  match v with
  | JsArray elements => decodeAll t_number elements
  | _ => None
  end.

Definition hexDigit (c : ascii) : option Z :=
  let n := Z.of_nat (nat_of_ascii c) in
  if (48 <=? n) && (n <=? 57) then Some (n - 48)
  else if (97 <=? n) && (n <=? 102) then Some (n - 87)
  else if (65 <=? n) && (n <=? 70) then Some (n - 55)
  else None.

Fixpoint parseHex (acc : Z) (s : string) : option Z :=
  match s with
  | EmptyString => Some acc
  | String c rest =>
      match hexDigit c with
      | Some d => parseHex (16 * acc + d) rest
      | None => None
      end
  end.

(** Modelled from the spec: [rpcQuantity] lives in [../input], which is not
    part of the sources.  A quantity on the wire is a string, [0x] followed
    by [0] or by hex digits without a leading zero; it decodes to a [BN]. *)
Definition rpcQuantity : Codec BN := fun v =>
  match v with
  | JsString (String "0" (String "x" digits)) =>
      match digits with
      | EmptyString => None
      | String "0" EmptyString => Some 0
      | String "0" _ => None
      | _ => parseHex 0 digits
      end
  | _ => None
  end.

(** Modelled from the spec: [validateParams] lives in [../input], which is
    not part of the sources.  "Any type/arity mismatch fails with an invalid
    input error": the parameter list must have exactly one entry per
    expected type, and every entry must decode.  The source calls it with
    one type and with two. *)
Definition arityMessage (expected : nat) (got : list JsValue) : string :=
  "Expected exactly " ++ decimal (Z.of_nat expected) ++
  " arguments and got " ++ decimal (Z.of_nat (List.length got)).

Definition paramMessage (index : nat) : string :=
  "Errors encountered in param " ++ decimal (Z.of_nat index).

Definition validateParams1 {A} (ta : Codec A) (params : list JsValue)
  : Result A :=
  match params with
  | [a] =>
      match ta a with
      | Some x => inr x
      | None => inl (InvalidInputError (paramMessage 0))
      end
  | _ => inl (InvalidInputError (arityMessage 1 params))
  end.

Definition validateParams2 {A B} (ta : Codec A) (tb : Codec B)
  (params : list JsValue) : Result (A * B) :=
  match params with
  | [a; b] =>
      match ta a with
      | Some x =>
          match tb b with
          | Some y => inr (x, y)
          | None => inl (InvalidInputError (paramMessage 1))
          end
      | None => inl (InvalidInputError (paramMessage 0))
      end
  | _ => inl (InvalidInputError (arityMessage 2 params))
  end.

(** ** The node

    Modelled from the spec: [HardhatNode] lives in [../node], which is not
    part of the sources.  The module needs seven operations of it ("Required
    Node operations"); the node is "an opaque, already-correct state
    machine", so each is a total function on the node's state [S]; a
    failure inside the node would pass through the module unchanged and is
    not part of the model.  A block header holds its timestamp as bytes,
    an unsigned integer of any size. *)

Record BlockHeader : Type := mkHeader { timestamp : BN }.
Record Block : Type := mkBlock { header : BlockHeader }.

(** [new BN(latestBlock.header.timestamp)]: reading the bytes does not
    fail. *)
Definition headerTimestamp (b : Block) : BN := timestamp (header b).

Class HardhatNode (S : Type) : Type := {
  getLatestBlock : S -> Block * S;
  setNextBlockTimestamp : BN -> S -> S;
  increaseTime : BN -> S -> S;
  getTimeIncrement : S -> BN * S;
  mineEmptyBlock : BN -> S -> S;
  takeSnapshot : S -> number * S;
  revertToSnapshot : number -> S -> bool * S
}.

(** What a request asked of the node, in order. *)
Inductive NodeCall : Type :=
| CallGetLatestBlock
| CallSetNextBlockTimestamp (t : BN)
| CallIncreaseTime (increment : BN)
| CallGetTimeIncrement
| CallMineEmptyBlock (t : BN)
| CallTakeSnapshot
| CallRevertToSnapshot (snapshotId : number).

Definition isMine (c : NodeCall) : bool :=
  match c with
  | CallMineEmptyBlock _ => true
  | _ => false
  end.

(** ** The request monad

    An [async] method either returns or throws, and on the way changes the
    node and leaves a trace of its calls.  A throw keeps the node state and
    the trace reached so far. *)

Definition Rpc (S : Type) : Type -> Type :=
  eitherT RpcError (state (S * list NodeCall)).

(** Running a method from a node state and the calls logged so far... *)
Definition exec {S A} (c : Rpc S A) (st : S * list NodeCall)
  : Result A * (S * list NodeCall) :=
  runState (unEitherT c) st.

(** ... and a whole request, from an empty log. *)
Definition run {S A} (c : Rpc S A) (s : S)
  : Result A * (S * list NodeCall) :=
  exec c (s, []).

Definition outcome {S A} (r : Result A * (S * list NodeCall)) : Result A :=
  fst r.
Definition finalState {S A} (r : Result A * (S * list NodeCall)) : S :=
  fst (snd r).
Definition calls {S A} (r : Result A * (S * list NodeCall)) : list NodeCall :=
  snd (snd r).

(** [await this._node.op(...)] for an operation with a result... *)
Definition await {S X} (c : NodeCall) (op : S -> X * S) : Rpc S X :=
  mkEitherT (mkState (fun st : S * list NodeCall =>
    let (x, s') := op (fst st) in (inr x, (s', (snd st ++ [c])%list)))).

(** ... and for one without. *)
Definition await_ {S} (c : NodeCall) (op : S -> S) : Rpc S unit :=
  await c (fun s => (tt, op s)).

(** A synchronous helper that returns or throws. *)
Definition liftResult {S A} (r : Result A) : Rpc S A :=
  match r with
  | inl e => raise e
  | inr a => ret a
  end.

(** [if (cond) { throw error }]. *)
Definition throwIf {S} (cond : bool) (error : Rpc S RpcError) : Rpc S unit :=
  if cond then (e <- error ;; raise e) else ret tt.

(** [Array.prototype.map] with a callback that may throw: the elements are
    visited from the left and the first throw ends the map. *)
Fixpoint mapResult {A B} (f : A -> Result B) (l : list A)
  : Result (list B) :=
  match l with
  | [] => inr []
  | x :: rest =>
      match f x with
      | inl e => inl e
      | inr y =>
          match mapResult f rest with
          | inl e => inl e
          | inr ys => inr (y :: ys)
          end
      end
  end.

(** ** [Array.prototype.every]

    The callback sees the element, its index and the whole array; the scan
    stops at the first [false]. *)

Fixpoint everyFrom {A} (callback : A -> nat -> list A -> bool)
  (arr : list A) (idx : nat) (rest : list A) : bool :=
  match rest with
  | [] => true
  | x :: rest' =>
      if callback x idx arr then everyFrom callback arr (S idx) rest'
      else false
  end.

Definition every {A} (callback : A -> nat -> list A -> bool) (arr : list A)
  : bool :=
  everyFrom callback arr 0%nat arr.

(** The callback of [_mineMultipleAction].  [arr[idx + 1]] exists whenever
    [idx] is not the last index, so the [None] branch is never reached. *)
Definition ltNext (ts : BN) (idx : nat) (arr : list BN) : bool :=
  if Z.of_nat idx =? Z.of_nat (List.length arr) - 1 then true
  else
    match nth_error arr (idx + 1) with
    | Some tsNext => ts <? tsNext
    | None => false
    end.

(** ** The module *)

Section EvmModule.

Context {Node : Type} {_node : HardhatNode Node}.

(** *** evm_setNextBlockTimestamp *)

Definition _setNextBlockTimestampParams (params : list JsValue)
  : Result number :=
  validateParams1 t_number params.

Definition lowerThanPrevious (timestamp previous : number) : string :=
  "Timestamp " ++ decimal (nval timestamp) ++
  " is lower than previous block's timestamp" ++
  " " ++ decimal (nval previous).

Definition _setNextBlockTimestampAction (timestamp : number)
  : Rpc Node string :=
  latestBlock <- await CallGetLatestBlock getLatestBlock ;;
  timestampBN <- liftResult (newBN timestamp) ;;
  let increment := timestampBN - headerTimestamp latestBlock in
  throwIf (increment <=? 0)
    (previous <- liftResult (toNumber (headerTimestamp latestBlock)) ;;
     ret (InvalidInputError (lowerThanPrevious timestamp previous))) ;;
  timestampBN <- liftResult (newBN timestamp) ;;
  await_ (CallSetNextBlockTimestamp timestampBN)
    (setNextBlockTimestamp timestampBN) ;;
  ret (decimal (nval timestamp)).

(** *** evm_increaseTime *)

Definition _increaseTimeParams (params : list JsValue) : Result number :=
  validateParams1 t_number params.

Definition _increaseTimeAction (increment : number) : Rpc Node string :=
  incrementBN <- liftResult (newBN increment) ;;
  await_ (CallIncreaseTime incrementBN) (increaseTime incrementBN) ;;
  totalIncrement <- await CallGetTimeIncrement getTimeIncrement ;;
  ret (decimal totalIncrement).

(** *** evm_mine *)

Definition _mineParams (params : list JsValue) : Result number :=
  let params :=
    if (List.length params =? 0)%nat then (params ++ [JsNumber zero])%list
    else params in
  validateParams1 t_number params.

Definition _mineAction (timestamp : number) : Rpc Node string :=
  (if negb (nval timestamp =? 0) then
     latestBlock <- await CallGetLatestBlock getLatestBlock ;;
     timestampBN <- liftResult (newBN timestamp) ;;
     let increment := timestampBN - headerTimestamp latestBlock in
     throwIf (increment <=? 0)
       (previous <- liftResult (toNumber (headerTimestamp latestBlock)) ;;
        ret (InvalidInputError (lowerThanPrevious timestamp previous)))
   else ret tt) ;;
  timestampBN <- liftResult (newBN timestamp) ;;
  await_ (CallMineEmptyBlock timestampBN) (mineEmptyBlock timestampBN) ;;
  ret (numberToRpcQuantity zero).

(** *** evm_mineMultiple *)

Definition _mineMultipleParams (params : list JsValue)
  : Result (number * list number) :=
  let len := List.length params in
  (* case 0: params.push(0), falling through to ... *)
  let params :=
    if (len =? 0)%nat then (params ++ [JsNumber zero])%list else params in
  (* ... case 1: params.push([]) *)
  let params :=
    if ((len =? 0) || (len =? 1))%nat then (params ++ [JsArray []])%list
    else params in
  validateParams2 t_number t_Array params.

Definition sizeMessage (timestamps : list number) (iterations : number)
  : string :=
  "Timestamps array size " ++ decimal (Z.of_nat (List.length timestamps)) ++
  " must be lower than or " ++
  "equal to the number of iterations specified " ++
  decimal (nval iterations) ++ ".".

Definition firstMessage (first latest : number) : string :=
  "First timestamp specified " ++ decimal (nval first) ++
  " should be greater " ++
  "than latest block's timestamp " ++ decimal (nval latest).

(** The [for] loop: [it] counts up from [0], [remaining] is
    [iterations - it]. *)
Fixpoint mineBlocks (timestampsBN : list BN) (it remaining : nat)
  : Rpc Node unit :=
  match remaining with
  | O => ret tt
  | Datatypes.S remaining' =>
      let newBlockTimestampBN :=
        if (it <? List.length timestampsBN)%nat then nth it timestampsBN 0
        else 0 in
      await_ (CallMineEmptyBlock newBlockTimestampBN)
        (mineEmptyBlock newBlockTimestampBN) ;;
      mineBlocks timestampsBN (Datatypes.S it) remaining'
  end.

Definition _mineMultipleAction (iterations : number)
  (timestamps : list number) : Rpc Node string :=
  timestampsBN <-
    match timestamps with
    | [] => ret []
    | _ :: _ =>
        throwIf (Z.of_nat (List.length timestamps) >? nval iterations)
          (ret (InvalidInputError (sizeMessage timestamps iterations))) ;;
        timestampsBN <- liftResult (mapResult newBN timestamps) ;;
        latestBlock <- await CallGetLatestBlock getLatestBlock ;;
        let latestBlockTimestampBN := headerTimestamp latestBlock in
        let increasingSequence := every ltNext timestampsBN in
        throwIf (nth 0 timestampsBN 0 <=? latestBlockTimestampBN)
          (firstN <- liftResult (toNumber (nth 0 timestampsBN 0)) ;;
           latestN <- liftResult (toNumber latestBlockTimestampBN) ;;
           ret (InvalidInputError (firstMessage firstN latestN))) ;;
        throwIf (negb increasingSequence)
          (ret (InvalidInputError
                  "Timestamps specified must be an increasing sequence")) ;;
        ret timestampsBN
    end ;;
  throwIf (nval iterations <=? 0)
    (ret (InvalidInputError
            "Invalid iterations number, it must be greater than 0")) ;;
  mineBlocks timestampsBN 0%nat (Z.to_nat (nval iterations)) ;;
  ret (numberToRpcQuantity zero).

(** *** evm_revert *)

Definition _revertParams (params : list JsValue) : Result BN :=
  validateParams1 rpcQuantity params.

Definition _revertAction (snapshotId : BN) : Rpc Node bool :=
  id <- liftResult (toNumber snapshotId) ;;
  await (CallRevertToSnapshot id) (revertToSnapshot id).

(** *** evm_snapshot *)

Definition _snapshotParams (params : list JsValue) : Result unit :=
  inr tt.

Definition _snapshotAction (_ : unit) : Rpc Node string :=
  snapshotId <- await CallTakeSnapshot takeSnapshot ;;
  ret (numberToRpcQuantity snapshotId).

(** *** The dispatcher *)

Definition processRequest (method : string) (params : list JsValue)
  : Rpc Node JsValue :=
  if (method =? "evm_increaseTime")%string then
    increment <- liftResult (_increaseTimeParams params) ;;
    result <- _increaseTimeAction increment ;;
    ret (JsString result)
  else if (method =? "evm_setNextBlockTimestamp")%string then
    timestamp <- liftResult (_setNextBlockTimestampParams params) ;;
    result <- _setNextBlockTimestampAction timestamp ;;
    ret (JsString result)
  else if (method =? "evm_mine")%string then
    timestamp <- liftResult (_mineParams params) ;;
    result <- _mineAction timestamp ;;
    ret (JsString result)
  else if (method =? "evm_mineMultiple")%string then
    args <- liftResult (_mineMultipleParams params) ;;
    result <- _mineMultipleAction (fst args) (snd args) ;;
    ret (JsString result)
  else if (method =? "evm_revert")%string then
    snapshotId <- liftResult (_revertParams params) ;;
    result <- _revertAction snapshotId ;;
    ret (JsBoolean result)
  else if (method =? "evm_snapshot")%string then
    args <- liftResult (_snapshotParams params) ;;
    result <- _snapshotAction args ;;
    ret (JsString result)
  else
    raise (MethodNotFoundError ("Method " ++ method ++ " not found")).

End EvmModule.

Definition supportedMethods : list string :=
  [ "evm_increaseTime"; "evm_setNextBlockTimestamp"; "evm_mine";
    "evm_mineMultiple"; "evm_revert"; "evm_snapshot" ].

(** ** A stub node

    Modelled from the spec: a small node for running the module on concrete
    requests.  It keeps the head timestamp, the cumulative time offset
    ([increaseTime] adds to it, [getTimeIncrement] reads it), the pinned
    next timestamp, the timestamps it was asked to mine and the number of
    snapshots it issued. *)

(** The [number] holding [z], for writing numerals. *)
Definition asNumber (z : Z) : number := mkNumber z.

Record StubNode : Type := mkStub {
  stubHead : BN;
  stubOffset : BN;
  stubPinned : BN;
  stubMined : list BN;
  stubSnapshots : Z
}.

#[export] Instance stubNode : HardhatNode StubNode := {
  getLatestBlock s := (mkBlock (mkHeader (stubHead s)), s);
  setNextBlockTimestamp t s :=
    mkStub (stubHead s) (stubOffset s) t (stubMined s) (stubSnapshots s);
  increaseTime i s :=
    mkStub (stubHead s) (stubOffset s + i) (stubPinned s) (stubMined s)
      (stubSnapshots s);
  getTimeIncrement s := (stubOffset s, s);
  mineEmptyBlock t s :=
    let next :=
      if negb (t =? 0) then t
      else if negb (stubPinned s =? 0) then stubPinned s
      else stubHead s + 1 in
    mkStub next (stubOffset s) 0 (stubMined s ++ [t])%list
      (stubSnapshots s);
  takeSnapshot s :=
    (asNumber (stubSnapshots s + 1),
     mkStub (stubHead s) (stubOffset s) (stubPinned s) (stubMined s)
       (stubSnapshots s + 1));
  revertToSnapshot id s :=
    if (1 <=? nval id) && (nval id <=? stubSnapshots s)
    then (true,
          mkStub (stubHead s) (stubOffset s) (stubPinned s) (stubMined s)
            (nval id - 1))
    else (false, s)
}.

(** A fresh stub: head block at second 100, no offset, nothing pinned. *)
Definition freshStub : StubNode := mkStub 100 0 0 [] 0.

(** ** Vocabulary of the statements *)

(** A sequence is strictly increasing when every earlier entry is below
    every later one. *)
Definition strictlyIncreasing (l : list Z) : Prop :=
  forall i j x y, (i < j)%nat ->
    nth_error l i = Some x -> nth_error l j = Some y -> x < y.

(** The same, checked pair by neighbouring pair. *)
Fixpoint increasingb (l : list Z) : bool :=
  match l with
  | x :: (y :: _) as rest => (x <? y) && increasingb rest
  | _ => true
  end.

(** The node after mining blocks with the given timestamps, in order. *)
Definition mineAll {Node} {_node : HardhatNode Node} (ts : list BN)
  (s : Node) : Node :=
  fold_left (fun s t => mineEmptyBlock t s) ts s.

(** The timestamps of a batch of [n] blocks: the supplied ones, then the
    sentinel zero for the rest. *)
Definition batch (timestamps : list number) (n : nat) : list BN :=
  (map nval timestamps ++ repeat 0 (n - List.length timestamps))%list.

(** The head block's timestamp as the node reports it in state [s]. *)
Definition headTimestamp {Node} {_node : HardhatNode Node} (s : Node) : Z :=
  headerTimestamp (fst (getLatestBlock s)).

(** An integer that a [number] and a [BN] both hold: its magnitude is
    below [2^53]. *)
Definition safeInteger (z : Z) : Prop := Z.abs z < SAFE_BOUND.

(** The node's cumulative time offset as it reports it in state [s]. *)
Definition timeIncrement {Node} {_node : HardhatNode Node} (s : Node) : BN :=
  fst (getTimeIncrement s).

(** Modelled from the spec: the node's time offset is cumulative.
    [increaseTime] "adds increment seconds to its cumulative time offset",
    and reading the total back leaves it as it is. *)
Definition cumulativeOffset (Node : Type) {_node : HardhatNode Node} : Prop :=
  (forall i s, timeIncrement (increaseTime i s) = timeIncrement s + i) /\
  (forall s, timeIncrement (snd (getTimeIncrement s)) = timeIncrement s).

(** A request that is turned down with [InvalidInputError] before the node
    is asked anything. *)
Definition rejectedUnasked {Node A}
  (r : Result A * (Node * list NodeCall)) : Prop :=
  isInvalidInput (outcome r) /\ calls r = [].

(** [evm_revert] asks the node to restore [snapshotId] and hands back the
    node's answer. *)
Definition revertPassedThrough {Node} {_node : HardhatNode Node}
  (snapshotId : BN) (s : Node)
  (r : Result JsValue * (Node * list NodeCall)) : Prop :=
  exists id : number,
    nval id = snapshotId /\
    r = (inr (JsBoolean (fst (revertToSnapshot id s))),
         (snd (revertToSnapshot id s), [CallRevertToSnapshot id])).

(** * Properties *)

(** ** Numbers *)

Lemma isSafeInteger_spec (z : Z) : isSafeInteger z = true <-> safeInteger z.
Proof. unfold isSafeInteger, safeInteger. apply Z.ltb_lt. Qed.

Lemma isSafeInteger_false (z : Z) :
  isSafeInteger z = false <-> SAFE_BOUND <= Z.abs z.
Proof. unfold isSafeInteger. apply Z.ltb_ge. Qed.

Lemma newBN_safe (n : number) :
  safeInteger (nval n) -> newBN n = inr (nval n).
Proof.
  intros safe. unfold newBN.
  now rewrite (proj2 (isSafeInteger_spec _) safe).
Qed.

Lemma toNumber_safe (b : BN) : safeInteger b -> toNumber b = inr (mkNumber b).
Proof.
  intros safe. unfold toNumber.
  now rewrite (proj2 (isSafeInteger_spec _) safe).
Qed.

Lemma toNumber_unsafe (b : BN) :
  SAFE_BOUND <= Z.abs b ->
  toNumber b =
  inl (AssertionError "Number can only safely store up to 53 bits").
Proof.
  intros large. unfold toNumber.
  now rewrite (proj2 (isSafeInteger_false _) large).
Qed.

(** Converting a whole array: every element must be safe. *)
Lemma mapResult_newBN (l : list number) :
  mapResult newBN l =
  if forallb (fun n => isSafeInteger (nval n)) l then inr (map nval l)
  else inl (AssertionError "Assertion failed").
Proof.
  induction l as [|n l IH]; [reflexivity|].
  cbn [mapResult forallb map]. unfold newBN at 1.
  destruct (isSafeInteger (nval n)); cbn [andb]; [|reflexivity].
  rewrite IH. now destruct (forallb _ l).
Qed.

Lemma forallb_safe (l : list number) :
  forallb (fun n => isSafeInteger (nval n)) l = true <->
  Forall (fun n => safeInteger (nval n)) l.
Proof.
  rewrite forallb_forall, Forall_forall.
  split; intros H n member; apply isSafeInteger_spec; now apply H.
Qed.

(** ** The request monad *)

Section Exec.

Context {S : Type}.
Implicit Types st : S * list NodeCall.

Lemma exec_ret {A} (a : A) st : exec (ret a : Rpc S A) st = (inr a, st).
Proof. reflexivity. Qed.

Lemma exec_raise {A} (e : RpcError) st :
  exec (raise e : Rpc S A) st = (inl e, st).
Proof. reflexivity. Qed.

Lemma exec_bind {A B} (c : Rpc S A) (k : A -> Rpc S B) st :
  exec (bind c k) st =
  match exec c st with
  | (inl e, st') => (inl e, st')
  | (inr a, st') => exec (k a) st'
  end.
Proof.
  unfold exec; simpl.
  destruct (runState (unEitherT c) st) as [[e|a] st']; reflexivity.
Qed.

Lemma exec_await {X} (c : NodeCall) (op : S -> X * S) s log :
  exec (await c op) (s, log) =
  (inr (fst (op s)), (snd (op s), (log ++ [c])%list)).
Proof. unfold exec, await; simpl. destruct (op s); reflexivity. Qed.

Lemma exec_await_ (c : NodeCall) (op : S -> S) s log :
  exec (await_ c op) (s, log) = (inr tt, (op s, (log ++ [c])%list)).
Proof. unfold await_. now rewrite exec_await. Qed.

Lemma exec_liftResult {A} (r : Result A) st :
  exec (liftResult r : Rpc S A) st = (r, st).
Proof. destruct r; reflexivity. Qed.

Lemma exec_throwIf_false (error : Rpc S RpcError) st :
  exec (throwIf false error) st = (inr tt, st).
Proof. reflexivity. Qed.

Lemma exec_throwIf_true (error : Rpc S RpcError) st :
  exec (throwIf true error) st =
  match exec error st with
  | (inl e, st') => (inl e, st')
  | (inr e, st') => (inl e, st')
  end.
Proof.
  unfold throwIf. rewrite exec_bind.
  destruct (exec error st) as [[e|e] st']; reflexivity.
Qed.

End Exec.

Create Rewrite HintDb rpc.

#[local] Hint Rewrite @exec_ret @exec_raise @exec_bind @exec_await
  @exec_await_ @exec_liftResult @exec_throwIf_false @exec_throwIf_true
  : rpc.

Ltac rpc :=
  repeat (progress (autorewrite with rpc; cbv beta iota; cbn [fst snd app])).

Tactic Notation "rpc" "in" hyp(H) :=
  repeat (progress (autorewrite with rpc in H; cbv beta iota in H;
                    cbn [fst snd app] in H)).

(** ** Every path through the actions *)

Section Paths.

Context {Node : Type} {_node : HardhatNode Node}.

Lemma setNextBlockTimestamp_run (t : number) (s : Node) :
  run (_setNextBlockTimestampAction t) s =
  let head := headTimestamp s in
  let s1 := snd (getLatestBlock s) in
  if isSafeInteger (nval t) then
    if nval t - head <=? 0 then
      (match toNumber head with
       | inl e => inl e
       | inr previous => inl (InvalidInputError (lowerThanPrevious t previous))
       end, (s1, [CallGetLatestBlock]))
    else
      (inr (decimal (nval t)),
       (setNextBlockTimestamp (nval t) s1,
        [CallGetLatestBlock; CallSetNextBlockTimestamp (nval t)]))
  else (inl (AssertionError "Assertion failed"), (s1, [CallGetLatestBlock])).
Proof.
  unfold run, _setNextBlockTimestampAction, headTimestamp, newBN. rpc.
  destruct (isSafeInteger (nval t)); [|now rpc]. rpc.
  destruct (nval t - headerTimestamp (fst (getLatestBlock s)) <=? 0);
    [|now rpc].
  rpc. destruct (toNumber (headerTimestamp (fst (getLatestBlock s))));
    now rpc.
Qed.

Lemma mine_run (t : number) (s : Node) :
  run (_mineAction t) s =
  let head := headTimestamp s in
  let s1 := snd (getLatestBlock s) in
  if nval t =? 0 then
    (inr "0x0", (mineEmptyBlock 0 s, [CallMineEmptyBlock 0]))
  else if isSafeInteger (nval t) then
    if nval t - head <=? 0 then
      (match toNumber head with
       | inl e => inl e
       | inr previous => inl (InvalidInputError (lowerThanPrevious t previous))
       end, (s1, [CallGetLatestBlock]))
    else
      (inr "0x0",
       (mineEmptyBlock (nval t) s1,
        [CallGetLatestBlock; CallMineEmptyBlock (nval t)]))
  else (inl (AssertionError "Assertion failed"), (s1, [CallGetLatestBlock])).
Proof.
  unfold run, _mineAction, headTimestamp. rewrite exec_bind.
  destruct (Z.eqb_spec (nval t) 0) as [z|nz]; cbn [negb].
  - unfold newBN. rewrite z. now rpc.
  - unfold newBN. rpc.
    destruct (isSafeInteger (nval t)); [|now rpc]. rpc.
    destruct (nval t - headerTimestamp (fst (getLatestBlock s)) <=? 0);
      [|now rpc].
    rpc. destruct (toNumber (headerTimestamp (fst (getLatestBlock s))));
      now rpc.
Qed.

Lemma exec_increaseTime (increment : number) (s : Node)
  (log : list NodeCall) :
  exec (_increaseTimeAction increment) (s, log) =
  if isSafeInteger (nval increment) then
    (inr (decimal (timeIncrement (increaseTime (nval increment) s))),
     (snd (getTimeIncrement (increaseTime (nval increment) s)),
      (log ++ [CallIncreaseTime (nval increment);
               CallGetTimeIncrement])%list))
  else (inl (AssertionError "Assertion failed"), (s, log)).
Proof.
  unfold _increaseTimeAction, newBN. rpc.
  destruct (isSafeInteger (nval increment)); rpc; [|reflexivity].
  now rewrite <- app_assoc.
Qed.

(** The [every] scan of the source is the neighbour-by-neighbour check. *)
Lemma everyFrom_ltNext (rest pre : list BN) :
  everyFrom ltNext (pre ++ rest) (List.length pre) rest = increasingb rest.
Proof.
  revert pre. induction rest as [|x rest IH]; intros pre; [reflexivity|].
  cbn [everyFrom]. unfold ltNext at 1.
  destruct rest as [|y rest].
  - rewrite length_app. cbn [List.length].
    destruct (Z.eqb_spec (Z.of_nat (List.length pre))
                (Z.of_nat (List.length pre + 1) - 1)); [reflexivity|lia].
  - rewrite length_app. cbn [List.length].
    destruct (Z.eqb_spec (Z.of_nat (List.length pre))
                (Z.of_nat (List.length pre + Datatypes.S (Datatypes.S (List.length rest))) - 1));
      [lia|].
    replace (pre ++ x :: y :: rest)%list with ((pre ++ [x]) ++ y :: rest)%list
      by now rewrite <- app_assoc.
    replace (List.length pre + 1)%nat with (List.length (pre ++ [x]))
      by now rewrite length_app.
    rewrite nth_error_app2 by lia. rewrite Nat.sub_diag. cbn [nth_error].
    replace (Datatypes.S (List.length pre)) with (List.length (pre ++ [x]))
      by (rewrite length_app; simpl; lia).
    rewrite IH. cbn [increasingb]. now destruct (x <? y).
Qed.

Lemma every_ltNext (l : list BN) : every ltNext l = increasingb l.
Proof. apply (everyFrom_ltNext l []). Qed.

Lemma increasingb_spec (l : list Z) :
  increasingb l = true <-> strictlyIncreasing l.
Proof.
  induction l as [|x [|y rest] IH].
  - split; [|reflexivity]. intros _ i j a b _ Hi. now destruct i.
  - split; [|reflexivity]. intros _ i j a b lt Hi Hj.
    destruct j as [|[|j]]; [lia|discriminate|discriminate].
  - cbn [increasingb]. rewrite andb_true_iff, Z.ltb_lt, IH. split.
    + intros [xy tail] i j a b lt Hi Hj.
      destruct j as [|j]; [lia|]. cbn [nth_error] in Hj.
      assert (yb : y <= b).
      { destruct j as [|j]; [injection Hj as <-; lia|].
        apply Z.lt_le_incl. apply (tail 0%nat (Datatypes.S j) y b); auto; lia. }
      destruct i as [|i].
      * injection Hi as <-. lia.
      * cbn [nth_error] in Hi. apply (tail i j a b); auto; lia.
    + intros inc. split.
      * apply (inc 0%nat 1%nat); auto.
      * intros i j a b lt Hi Hj.
        apply (inc (Datatypes.S i) (Datatypes.S j)); auto; lia.
Qed.

(** The slots of the loop, read off the array. *)
Lemma batch_slots (timestamps : list number) (n : nat) :
  (List.length timestamps <= n)%nat ->
  map (fun it => nth it (map nval timestamps) 0) (seq 0 n) =
  batch timestamps n.
Proof.
  intros le. unfold batch. set (l := map nval timestamps).
  assert (len : List.length l = List.length timestamps)
    by apply length_map.
  rewrite <- len in *. clearbody l. clear len timestamps.
  apply (nth_ext _ _ 0 0).
  - rewrite length_map, length_seq, length_app, repeat_length. lia.
  - intros i. rewrite length_map, length_seq. intros lt.
    rewrite <- (nth_overflow l 0 (le_n (List.length l))) at 1.
    rewrite (map_nth (fun it => nth it l 0)), seq_nth by exact lt.
    cbn [Nat.add].
    destruct (Nat.lt_ge_cases i (List.length l)) as [inside|outside].
    + now rewrite app_nth1.
    + rewrite app_nth2 by exact outside.
      rewrite nth_overflow by exact outside. symmetry. apply nth_repeat.
Qed.

Lemma exec_mineBlocks (timestampsBN : list BN) (remaining it : nat)
  (s : Node) (log : list NodeCall) :
  let slots := map (fun i => nth i timestampsBN 0) (seq it remaining) in
  exec (mineBlocks timestampsBN it remaining) (s, log) =
  (inr tt, (mineAll slots s, (log ++ map CallMineEmptyBlock slots)%list)).
Proof.
  revert it s log.
  induction remaining as [|remaining IH]; intros it s log; cbn zeta.
  - cbn [mineBlocks seq map mineAll fold_left]. rewrite exec_ret.
    now rewrite app_nil_r.
  - cbn [mineBlocks seq map]. rewrite exec_bind, exec_await_. cbv beta iota.
    rewrite IH. cbn zeta.
    assert (slot : (if (it <? List.length timestampsBN)%nat
                    then nth it timestampsBN 0 else 0) = nth it timestampsBN 0).
    { destruct (Nat.ltb_spec it (List.length timestampsBN)); [reflexivity|].
      symmetry. now apply nth_overflow. }
    rewrite slot. unfold mineAll. cbn [fold_left].
    now rewrite <- app_assoc.
Qed.

(** Every path through [_mineMultipleAction]. *)
Lemma mineMultiple_run (iterations : number) (timestamps : list number)
  (s : Node) :
  let n := Z.to_nat (nval iterations) in
  let s1 := snd (getLatestBlock s) in
  let mined (from : Node) (log : list NodeCall) :=
    (inr "0x0",
     (mineAll (batch timestamps n) from,
      (log ++ map CallMineEmptyBlock (batch timestamps n))%list)) in
  let nonPositive :=
    InvalidInputError "Invalid iterations number, it must be greater than 0" in
  run (_mineMultipleAction iterations timestamps) s =
  match timestamps with
  | [] =>
      if nval iterations <=? 0 then (inl nonPositive, (s, []))
      else mined s []
  | first :: _ =>
      if Z.of_nat (List.length timestamps) >? nval iterations then
        (inl (InvalidInputError (sizeMessage timestamps iterations)), (s, []))
      else if negb (forallb (fun t => isSafeInteger (nval t)) timestamps) then
        (inl (AssertionError "Assertion failed"), (s, []))
      else if nval first <=? headTimestamp s then
        (match toNumber (headTimestamp s) with
         | inl e => inl e
         | inr latestN => inl (InvalidInputError (firstMessage first latestN))
         end, (s1, [CallGetLatestBlock]))
      else if negb (increasingb (map nval timestamps)) then
        (inl (InvalidInputError
                "Timestamps specified must be an increasing sequence"),
         (s1, [CallGetLatestBlock]))
      else mined s1 [CallGetLatestBlock]
  end.
Proof.
  intros n s1 mined nonPositive.
  unfold run, _mineMultipleAction. rewrite exec_bind.
  destruct timestamps as [|first rest].
  - rewrite exec_ret. cbv beta iota. rewrite exec_bind.
    destruct (nval iterations <=? 0) eqn:nonpos.
    + now rpc.
    + rpc. rewrite exec_mineBlocks. cbn zeta. rpc.
      fold n. unfold mined.
      rewrite <- (batch_slots [] n) by (simpl; lia). reflexivity.
  - set (timestamps := first :: rest).
    rewrite exec_bind.
    destruct (Z.of_nat (List.length timestamps) >? nval iterations) eqn:size;
      [now rpc|].
    rpc. rewrite mapResult_newBN.
    destruct (forallb (fun t => isSafeInteger (nval t)) timestamps) eqn:safe;
      cbn [negb]; [|now rpc].
    rpc. unfold headTimestamp. fold s1.
    change (nth 0 (map nval timestamps) 0) with (nval first).
    destruct (nval first <=? headerTimestamp (fst (getLatestBlock s)))
      eqn:low.
    + rpc.
      assert (firstSafe : toNumber (nval first) = inr first).
      { subst timestamps. cbn [forallb] in safe.
        apply andb_prop in safe as [safe _]. unfold toNumber.
        rewrite safe. now destruct first. }
      rewrite firstSafe. rpc.
      destruct (toNumber (headerTimestamp (fst (getLatestBlock s))));
        now rpc.
    + rpc. rewrite every_ltNext.
      destruct (increasingb (map nval timestamps)) eqn:inc; cbn [negb];
        [|now rpc].
      rpc. rewrite Z.gtb_ltb, Z.ltb_ge in size.
      assert (pos : 0 < nval iterations).
      { subst timestamps. cbn [List.length] in size. lia. }
      destruct (Z.leb_spec (nval iterations) 0) as [bad|_]; [lia|].
      rpc. rewrite exec_mineBlocks. cbn zeta. rpc. fold n.
      unfold mined. rewrite batch_slots; [reflexivity|].
      unfold n. lia.
Qed.

Lemma filter_isMine_map (ts : list BN) :
  filter isMine (map CallMineEmptyBlock ts) = map CallMineEmptyBlock ts.
Proof. induction ts as [|t ts IH]; simpl; [reflexivity|now rewrite IH]. Qed.

End Paths.

(** * The claims *)

Section Claims.

Context {Node : Type} {_node : HardhatNode Node}.

(** ** Time control *)

(** C3, as the code has it. [evm_setNextBlockTimestamp] with a timestamp
    below [2^53] in magnitude: when the head block's timestamp is below
    [2^53] too, the request is refused with [InvalidInputError], in a
    message that cites the timestamp and the head block's timestamp,
    exactly when [timestamp - head <= 0], and then the node's
    [setNextBlockTimestamp] is not called; when [timestamp - head > 0] the
    node is told to pin [timestamp] and the timestamp comes back in
    decimal. *)
Theorem setNextBlockTimestamp_checks_head (t : number) (s : Node) :
  safeInteger (nval t) ->
  let head := headTimestamp s in
  let s1 := snd (getLatestBlock s) in
  let r := run (_setNextBlockTimestampAction t) s in
  (nval t - head <= 0 -> safeInteger head ->
   r = (inl (InvalidInputError
               ("Timestamp " ++ decimal (nval t) ++
                " is lower than previous block's timestamp " ++
                decimal head)),
        (s1, [CallGetLatestBlock]))) /\
  (0 < nval t - head ->
   r = (inr (decimal (nval t)),
        (setNextBlockTimestamp (nval t) s1,
         [CallGetLatestBlock; CallSetNextBlockTimestamp (nval t)]))) /\
  (safeInteger head ->
   (isInvalidInput (outcome r) <-> nval t - head <= 0)).
Proof.
  intros safe head s1 r. subst r. rewrite setNextBlockTimestamp_run.
  cbn zeta. fold head s1.
  rewrite (proj2 (isSafeInteger_spec _) safe).
  destruct (Z.leb_spec (nval t - head) 0) as [le|gt].
  - split; [|split]; [|intros; lia|].
    + intros _ headSafe. now rewrite (toNumber_safe _ headSafe).
    + intros headSafe. rewrite (toNumber_safe _ headSafe).
      split; [intros _; exact le | intros _; eexists; reflexivity].
  - split; [|split]; [intros; lia | reflexivity |].
    intros _. split; [|intros; lia].
    intros [m Hm]. discriminate Hm.
Qed.

(** C5, as the code has it. [evm_increaseTime] with an increment below
    [2^53] in magnitude: the node is told to add the increment to its
    offset, the total is read back and returned in decimal, not as a hex
    quantity; on a node whose offset is cumulative and starts at zero,
    [evm_increaseTime([5])] followed by [evm_increaseTime([10])] returns
    the string 15. *)
Theorem increaseTime_returns_total :
  (forall (increment : number) (s : Node),
     safeInteger (nval increment) ->
     let s1 := increaseTime (nval increment) s in
     run (_increaseTimeAction increment) s =
     (inr (decimal (timeIncrement s1)),
      (snd (getTimeIncrement s1),
       [CallIncreaseTime (nval increment); CallGetTimeIncrement]))) /\
  (cumulativeOffset Node ->
   forall s : Node, timeIncrement s = 0 ->
     outcome
       (run (_ <- processRequest "evm_increaseTime" [JsNumber (asNumber 5)] ;;
             processRequest "evm_increaseTime" [JsNumber (asNumber 10)]) s) =
     inr (JsString "15")).
Proof.
  split.
  - intros increment s safe s1. unfold run. rewrite exec_increaseTime.
    now rewrite (proj2 (isSafeInteger_spec _) safe).
  - intros [Hadd Hread] s fresh.
    assert (P : forall (n : number) (s : Node) log,
              isSafeInteger (nval n) = true ->
              exec (processRequest "evm_increaseTime" [JsNumber n]) (s, log) =
              (inr (JsString
                      (decimal (timeIncrement (increaseTime (nval n) s)))),
               (snd (getTimeIncrement (increaseTime (nval n) s)),
                (log ++ [CallIncreaseTime (nval n);
                         CallGetTimeIncrement])%list))).
    { intros n s' log safe. unfold processRequest.
      cbn [String.eqb Ascii.eqb Bool.eqb].
      unfold _increaseTimeParams, validateParams1, t_number.
      rpc. rewrite exec_increaseTime, safe. now rpc. }
    unfold run, outcome. rewrite exec_bind, P by reflexivity.
    cbv beta iota. rewrite P by reflexivity.
    cbn [fst]. rewrite Hadd, Hread, Hadd, fresh. reflexivity.
Qed.

(** ** Mining one block *)

(** C4, as the code has it. [evm_mine] with a timestamp below [2^53] in
    magnitude: a nonzero timestamp at or below the head block's is refused
    (with [InvalidInputError] when the head block's timestamp is below
    [2^53]) and nothing is mined; a timestamp above the head's, or zero
    (also when the empty parameter list was completed with [0], and then
    the head block is not even read), makes the node mine exactly one block
    with that timestamp, and the result is the zero quantity. *)
Theorem mine_checks_nonzero_timestamp (t : number) (s : Node) :
  safeInteger (nval t) ->
  let head := headTimestamp s in
  let s1 := snd (getLatestBlock s) in
  let r := run (_mineAction t) s in
  (nval t <> 0 -> nval t <= head ->
   (exists e, outcome r = inl e) /\
   (safeInteger head -> isInvalidInput (outcome r)) /\
   finalState r = s1 /\ calls r = [CallGetLatestBlock]) /\
  (nval t <> 0 -> head < nval t ->
   r = (inr "0x0",
        (mineEmptyBlock (nval t) s1,
         [CallGetLatestBlock; CallMineEmptyBlock (nval t)]))) /\
  (nval t = 0 ->
   r = (inr "0x0", (mineEmptyBlock 0 s, [CallMineEmptyBlock 0]))) /\
  run (processRequest "evm_mine" []) s =
  (inr (JsString "0x0"), (mineEmptyBlock 0 s, [CallMineEmptyBlock 0])).
Proof.
  intros safe head s1 r. subst r. rewrite mine_run. cbn zeta. fold head s1.
  rewrite (proj2 (isSafeInteger_spec _) safe).
  split; [|split; [|split]].
  - intros nz le. destruct (Z.eqb_spec (nval t) 0) as [z|_]; [contradiction|].
    destruct (Z.leb_spec (nval t - head) 0) as [_|gt]; [|lia].
    split; [destruct (toNumber head); eexists; reflexivity|].
    split; [|split; reflexivity].
    intros headSafe. rewrite (toNumber_safe _ headSafe). eexists. reflexivity.
  - intros nz lt. destruct (Z.eqb_spec (nval t) 0) as [z|_]; [contradiction|].
    destruct (Z.leb_spec (nval t - head) 0) as [le|_]; [lia|]. reflexivity.
  - intros z. destruct (Z.eqb_spec (nval t) 0) as [_|nz]; [|contradiction].
    reflexivity.
  - unfold run, processRequest. cbn [String.eqb Ascii.eqb Bool.eqb].
    unfold _mineParams, validateParams1, t_number.
    cbn [List.length Nat.eqb app]. rpc.
    change (exec (_mineAction zero) (s, [])) with (run (_mineAction zero) s).
    rewrite mine_run. reflexivity.
Qed.

(** ** The dispatcher *)

(** C6. A method name outside the six supported ones fails with
    [MethodNotFoundError], the message carries the name, and the node is not
    called, whatever the parameters. *)
Theorem unknown_method_not_found (method : string) (params : list JsValue)
  (s : Node) :
  ~ In method supportedMethods ->
  run (processRequest method params) s =
  (inl (MethodNotFoundError ("Method " ++ method ++ " not found")), (s, [])).
Proof.
  intros unknown. unfold processRequest, supportedMethods in *.
  repeat match goal with
  | |- context [String.eqb method ?name] =>
      destruct (String.eqb_spec method name) as [known|_];
        [exfalso; apply unknown; rewrite known; simpl; tauto|]
  end.
  reflexivity.
Qed.

(** C9. [evm_mineMultiple] with no parameters: the defaults are [0]
    iterations and no timestamps, the iterations check turns the request
    down with [InvalidInputError], and the node is not called. *)
Theorem mineMultiple_without_params_rejected (s : Node) :
  _mineMultipleParams [] = inr (zero, []) /\
  run (processRequest "evm_mineMultiple" []) s =
  (inl (InvalidInputError
          "Invalid iterations number, it must be greater than 0"),
   (s, [])) /\
  rejectedUnasked (run (processRequest "evm_mineMultiple" []) s).
Proof.
  assert (E : run (processRequest "evm_mineMultiple" []) s =
              (inl (InvalidInputError
                      "Invalid iterations number, it must be greater than 0"),
               (s, []))).
  { unfold run, processRequest. cbn [String.eqb Ascii.eqb Bool.eqb].
    unfold _mineMultipleParams, validateParams2, t_number, t_Array.
    cbn [List.length Nat.eqb orb app decodeAll].
    rpc. unfold _mineMultipleAction. cbn [nval zero Z.leb Z.compare].
    now rpc. }
  split; [reflexivity|]. split; [exact E|].
  unfold rejectedUnasked. rewrite E. split; [eexists|]; reflexivity.
Qed.

(** ** Snapshots *)

(** [evm_snapshot] does not look at its parameters: [_snapshotParams]
    returns the empty tuple for every parameter list, so the node is asked
    for one snapshot and its id comes back as a hex quantity. *)
Lemma snapshot_ignores_params (params : list JsValue) (s : Node) :
  run (processRequest "evm_snapshot" params) s =
  (inr (JsString (numberToRpcQuantity (fst (takeSnapshot s)))),
   (snd (takeSnapshot s), [CallTakeSnapshot])).
Proof.
  unfold run, processRequest. cbn [String.eqb Ascii.eqb Bool.eqb].
  unfold _snapshotParams, _snapshotAction. now rpc.
Qed.

Lemma rpcQuantity_nonneg (v : JsValue) (q : BN) :
  rpcQuantity v = Some q -> 0 <= q.
Proof.
  assert (D : forall c d, hexDigit c = Some d -> 0 <= d).
  { intros c d. unfold hexDigit.
    repeat match goal with
    | |- context [if ?b then _ else _] =>
        let T := fresh "T" in
        destruct b eqn:T;
          [apply andb_prop in T; destruct T as [T _]; apply Z.leb_le in T;
           intros [= <-]; lia|]
    end.
    discriminate. }
  assert (P : forall digits acc z,
            parseHex acc digits = Some z -> 0 <= acc -> 0 <= z).
  { induction digits as [|c rest IH]; cbn [parseHex]; intros acc z.
    - now intros [= <-].
    - destruct (hexDigit c) as [d|] eqn:Hd; [|discriminate].
      intros Hz Hacc. apply (IH _ _ Hz). specialize (D _ _ Hd). lia. }
  destruct v as [| | |str|]; try discriminate. unfold rpcQuantity.
  destruct str as [|c0 [|c1 digits]]; try discriminate;
    try (destruct c0 as [[] [] [] [] [] [] [] []]; discriminate).
  intros H.
  assert (Q : q = 0 \/ parseHex 0 digits = Some q).
  { revert H.
    destruct c0 as [[] [] [] [] [] [] [] []]; try discriminate.
    destruct c1 as [[] [] [] [] [] [] [] []]; try discriminate.
    destruct digits as [|d0 more]; [discriminate|].
    destruct d0 as [[] [] [] [] [] [] [] []]; try (now right).
    destruct more; [intros [= <-]; now left | discriminate]. }
  destruct Q as [->|Q]; [lia|]. apply (P _ _ _ Q). lia.
Qed.

(** C7, as the code has it. A snapshot id below [2^53], given as the one
    quantity-typed argument of [evm_revert], is handed to the node's
    [revertToSnapshot], and the node's boolean answer is the result,
    unchanged. *)
Theorem revert_passes_boolean_through (v : JsValue) (snapshotId : BN)
  (s : Node) :
  rpcQuantity v = Some snapshotId ->
  snapshotId < SAFE_BOUND ->
  revertPassedThrough snapshotId s (run (processRequest "evm_revert" [v]) s).
Proof.
  intros decoded small.
  assert (safe : safeInteger snapshotId).
  { pose proof (rpcQuantity_nonneg _ _ decoded). unfold safeInteger. lia. }
  exists (mkNumber snapshotId). split; [reflexivity|].
  unfold run, processRequest. cbn [String.eqb Ascii.eqb Bool.eqb].
  unfold _revertParams, validateParams1. rewrite decoded.
  rpc. unfold _revertAction. rewrite (toNumber_safe _ safe). now rpc.
Qed.

(** C10. A snapshot id of [2^53] or more, given as the quantity-typed
    argument of [evm_revert], fails in [toNumber]: the request ends with the
    assertion's error and the node's [revertToSnapshot] is never called. *)
Theorem revert_large_id_fails_before_node (v : JsValue) (snapshotId : BN)
  (s : Node) :
  rpcQuantity v = Some snapshotId ->
  SAFE_BOUND <= snapshotId ->
  toNumber snapshotId =
    inl (AssertionError "Number can only safely store up to 53 bits") /\
  run (processRequest "evm_revert" [v]) s =
  (inl (AssertionError "Number can only safely store up to 53 bits"),
   (s, [])).
Proof.
  intros decoded large.
  assert (T : toNumber snapshotId =
              inl (AssertionError
                     "Number can only safely store up to 53 bits")).
  { apply toNumber_unsafe. lia. }
  split; [exact T|].
  unfold run, processRequest. cbn [String.eqb Ascii.eqb Bool.eqb].
  unfold _revertParams, validateParams1. rewrite decoded.
  rpc. unfold _revertAction. rewrite T. now rpc.
Qed.

(** ** Mining a batch *)


(** C2, as the code has it. [evm_mineMultiple] with [n > 0] iterations
    and valid timestamps [t1..tk] ([k <= n], [t1] above the head block's
    timestamp, strictly increasing), each below [2^53] in magnitude: the
    node's [mineEmptyBlock] is called exactly [n] times, in order, first
    with [t1..tk] and then with the sentinel zero, and the result is the
    zero quantity. *)
Theorem mineMultiple_mines_in_order (iterations : number)
  (timestamps : list number) (s : Node) :
  0 < nval iterations ->
  Z.of_nat (List.length timestamps) <= nval iterations ->
  (forall first, hd_error timestamps = Some first ->
                 headTimestamp s < nval first) ->
  strictlyIncreasing (map nval timestamps) ->
  Forall (fun t => safeInteger (nval t)) timestamps ->
  let n := Z.to_nat (nval iterations) in
  let k := List.length timestamps in
  let r := run (_mineMultipleAction iterations timestamps) s in
  let read :=
    match timestamps with [] => [] | _ => [CallGetLatestBlock] end in
  let s1 :=
    match timestamps with [] => s | _ => snd (getLatestBlock s) end in
  outcome r = inr "0x0" /\
  calls r =
    (read ++ map CallMineEmptyBlock
               (map nval timestamps ++ repeat 0 (n - k)))%list /\
  filter isMine (calls r) =
    map CallMineEmptyBlock (map nval timestamps ++ repeat 0 (n - k)) /\
  List.length (filter isMine (calls r)) = n /\
  (forall i t, nth_error timestamps i = Some t ->
     nth_error (filter isMine (calls r)) i =
     Some (CallMineEmptyBlock (nval t))) /\
  (forall i, (k <= i < n)%nat ->
     nth_error (filter isMine (calls r)) i = Some (CallMineEmptyBlock 0)) /\
  finalState r = mineAll (map nval timestamps ++ repeat 0 (n - k)) s1.
Proof.
  intros pos size above inc safe n k r read s1.
  assert (E : r = (inr "0x0",
                   (mineAll (batch timestamps n) s1,
                    (read ++ map CallMineEmptyBlock (batch timestamps n))%list))).
  { subst r. rewrite mineMultiple_run. cbn zeta. fold n.
    destruct timestamps as [|first rest].
    - destruct (Z.leb_spec (nval iterations) 0) as [bad|_]; [lia|reflexivity].
    - set (timestamps := first :: rest) in *.
      destruct (Z.gtb_spec (Z.of_nat (List.length timestamps))
                  (nval iterations)) as [bad|_]; [lia|].
      apply forallb_safe in safe. rewrite safe. cbn [negb].
      specialize (above first eq_refl).
      destruct (Z.leb_spec (nval first) (headTimestamp s)) as [bad|_]; [lia|].
      apply increasingb_spec in inc. rewrite inc. reflexivity. }
  assert (F : filter isMine (calls r) =
              map CallMineEmptyBlock (batch timestamps n)).
  { rewrite E. unfold calls. cbn [snd]. rewrite filter_app, filter_isMine_map.
    now destruct timestamps. }
  fold (batch timestamps n).
  split; [now rewrite E|]. split; [now rewrite E|]. split; [exact F|].
  split; [|split; [|split; [|now rewrite E]]].
  - rewrite F, length_map. unfold batch.
    rewrite length_app, length_map, repeat_length. fold k. unfold n. lia.
  - intros i t at_i. rewrite F. unfold batch.
    rewrite nth_error_map, nth_error_app1, nth_error_map, at_i;
      [reflexivity|].
    rewrite length_map. apply nth_error_Some. now rewrite at_i.
  - intros i [past before]. rewrite F. unfold batch.
    rewrite nth_error_map, nth_error_app2 by (rewrite length_map; exact past).
    rewrite length_map, nth_error_repeat; [reflexivity|]. fold k. lia.
Qed.

End Claims.

(** * The module on the stub node

    Concrete requests against [freshStub], whose head block is at second
    100. *)



Lemma mineMultiple_mines_in_order_witness :
  let r := run (_mineMultipleAction (asNumber 3) [asNumber 101; asNumber 105])
             freshStub in
  outcome r = inr "0x0" /\
  calls r = [CallGetLatestBlock; CallMineEmptyBlock 101;
             CallMineEmptyBlock 105; CallMineEmptyBlock 0] /\
  List.length (filter isMine (calls r)) = 3%nat.
Proof.
  assert (pos : 0 < nval (asNumber 3)) by reflexivity.
  assert (size : Z.of_nat (List.length [asNumber 101; asNumber 105]) <=
                 nval (asNumber 3)) by (simpl; lia).
  assert (above : forall first,
            hd_error [asNumber 101; asNumber 105] = Some first ->
            headTimestamp freshStub < nval first)
    by (intros first [= <-]; reflexivity).
  assert (inc : strictlyIncreasing (map nval [asNumber 101; asNumber 105]))
    by (apply increasingb_spec; reflexivity).
  assert (safe : Forall (fun t => safeInteger (nval t))
                   [asNumber 101; asNumber 105])
    by (apply forallb_safe; reflexivity).
  destruct (mineMultiple_mines_in_order (asNumber 3)
              [asNumber 101; asNumber 105] freshStub pos size above inc safe)
    as [result [asked [_ [count _]]]].
  split; [exact result|]. split; [exact asked | exact count].
Defined.

(** C2 as stated fails on the batch of 1 with the timestamp [2^53]: the
    batch is valid, yet the request ends in bn.js's assertion and nothing
    is mined. *)
Lemma mineMultiple_valid_unsafe_counterexample :
  0 < nval (asNumber 1) /\
  Z.of_nat (List.length [asNumber (2 ^ 53)]) <= nval (asNumber 1) /\
  headTimestamp freshStub < nval (asNumber (2 ^ 53)) /\
  strictlyIncreasing (map nval [asNumber (2 ^ 53)]) /\
  run (_mineMultipleAction (asNumber 1) [asNumber (2 ^ 53)]) freshStub =
  (inl (AssertionError "Assertion failed"), (freshStub, [])).
Proof.
  split; [reflexivity|]. split; [vm_compute; discriminate|].
  split; [reflexivity|]. split; [|reflexivity].
  apply increasingb_spec. reflexivity.
Qed.

Lemma setNextBlockTimestamp_checks_head_witness :
  run (_setNextBlockTimestampAction (asNumber 50)) freshStub =
    (inl (InvalidInputError
            "Timestamp 50 is lower than previous block's timestamp 100"),
     (freshStub, [CallGetLatestBlock])) /\
  outcome (run (_setNextBlockTimestampAction (asNumber 150)) freshStub) =
    inr "150".
Proof.
  assert (safe50 : safeInteger (nval (asNumber 50))) by reflexivity.
  assert (safe150 : safeInteger (nval (asNumber 150))) by reflexivity.
  assert (headSafe : safeInteger (headTimestamp freshStub)) by reflexivity.
  assert (low : nval (asNumber 50) - headTimestamp freshStub <= 0)
    by (vm_compute; discriminate).
  assert (above : 0 < nval (asNumber 150) - headTimestamp freshStub)
    by reflexivity.
  pose proof (proj1 (setNextBlockTimestamp_checks_head (asNumber 50)
                       freshStub safe50) low headSafe) as refused.
  pose proof (proj1 (proj2 (setNextBlockTimestamp_checks_head (asNumber 150)
                              freshStub safe150)) above) as pinned.
  split; [exact refused|]. cbv zeta in pinned. rewrite pinned. reflexivity.
Defined.

(** C3 as stated fails at the timestamp [2^53]: it is above the head
    block's, yet the request ends in bn.js's assertion after the head block
    was read, and the node's [setNextBlockTimestamp] is not called. *)
Lemma setNextBlockTimestamp_unsafe_counterexample :
  0 < nval (asNumber (2 ^ 53)) - headTimestamp freshStub /\
  run (_setNextBlockTimestampAction (asNumber (2 ^ 53))) freshStub =
  (inl (AssertionError "Assertion failed"),
   (freshStub, [CallGetLatestBlock])).
Proof. split; reflexivity. Qed.

Lemma mine_checks_nonzero_timestamp_witness :
  isInvalidInput (outcome (run (_mineAction (asNumber 100)) freshStub)) /\
  calls (run (_mineAction (asNumber 100)) freshStub) = [CallGetLatestBlock] /\
  run (_mineAction (asNumber 101)) freshStub =
    (inr "0x0",
     (mineEmptyBlock 101 freshStub,
      [CallGetLatestBlock; CallMineEmptyBlock 101])).
Proof.
  assert (safe100 : safeInteger (nval (asNumber 100))) by reflexivity.
  assert (safe101 : safeInteger (nval (asNumber 101))) by reflexivity.
  assert (headSafe : safeInteger (headTimestamp freshStub)) by reflexivity.
  assert (nonzero : nval (asNumber 100) <> 0) by discriminate.
  assert (low : nval (asNumber 100) <= headTimestamp freshStub)
    by (vm_compute; discriminate).
  destruct (proj1 (mine_checks_nonzero_timestamp (asNumber 100) freshStub
                     safe100) nonzero low) as [_ [invalid [_ asked]]].
  assert (nonzero' : nval (asNumber 101) <> 0) by discriminate.
  assert (above : headTimestamp freshStub < nval (asNumber 101))
    by reflexivity.
  pose proof (proj1 (proj2 (mine_checks_nonzero_timestamp (asNumber 101)
                              freshStub safe101)) nonzero' above) as mined.
  split; [exact (invalid headSafe)|]. split; [exact asked | exact mined].
Defined.

(** C4 as stated fails at the timestamp [2^53]: it is nonzero and above
    the head block's, yet the request ends in bn.js's assertion after the
    head block was read, and no block is mined. *)
Lemma mine_unsafe_counterexample :
  nval (asNumber (2 ^ 53)) <> 0 /\
  headTimestamp freshStub < nval (asNumber (2 ^ 53)) /\
  run (_mineAction (asNumber (2 ^ 53))) freshStub =
  (inl (AssertionError "Assertion failed"),
   (freshStub, [CallGetLatestBlock])).
Proof. split; [discriminate|]. split; reflexivity. Qed.

Lemma stub_cumulativeOffset : cumulativeOffset StubNode.
Proof. split; reflexivity. Qed.

Lemma increaseTime_returns_total_witness :
  outcome
    (run (_ <- processRequest "evm_increaseTime" [JsNumber (asNumber 5)] ;;
          processRequest "evm_increaseTime" [JsNumber (asNumber 10)])
       freshStub) =
  inr (JsString "15").
Proof.
  apply (proj2 increaseTime_returns_total stub_cumulativeOffset freshStub).
  reflexivity.
Defined.

Lemma unknown_method_not_found_witness :
  ~ In "evm_bogus" supportedMethods /\
  run (processRequest "evm_bogus" []) freshStub =
  (inl (MethodNotFoundError "Method evm_bogus not found"), (freshStub, [])).
Proof.
  assert (unknown : ~ In "evm_bogus" supportedMethods).
  { simpl. intros [H|[H|[H|[H|[H|[H|[]]]]]]]; discriminate H. }
  split; [exact unknown|].
  exact (unknown_method_not_found "evm_bogus" [] freshStub unknown).
Defined.

(** C5 as stated fails at the increment [2^53]: the request ends in
    bn.js's assertion before the node's [increaseTime] is called. *)
Lemma increaseTime_unsafe_counterexample :
  run (_increaseTimeAction (asNumber (2 ^ 53))) freshStub =
  (inl (AssertionError "Assertion failed"), (freshStub, [])).
Proof. reflexivity. Qed.

Lemma revert_passes_boolean_through_witness :
  rpcQuantity (JsString "0x1") = Some 1 /\
  revertPassedThrough 1 freshStub
    (run (processRequest "evm_revert" [JsString "0x1"]) freshStub).
Proof.
  assert (decoded : rpcQuantity (JsString "0x1") = Some 1) by reflexivity.
  split; [exact decoded|].
  apply (revert_passes_boolean_through (JsString "0x1") 1 freshStub decoded).
  reflexivity.
Defined.

Lemma revert_large_id_fails_before_node_witness :
  rpcQuantity (JsString "0x20000000000000") = Some SAFE_BOUND /\
  run (processRequest "evm_revert" [JsString "0x20000000000000"]) freshStub =
  (inl (AssertionError "Number can only safely store up to 53 bits"),
   (freshStub, [])).
Proof.
  assert (decoded : rpcQuantity (JsString "0x20000000000000") =
                    Some SAFE_BOUND) by reflexivity.
  split; [exact decoded|].
  apply (revert_large_id_fails_before_node _ SAFE_BOUND freshStub decoded).
  apply Z.le_refl.
Defined.

(** C7 as stated fails at the id [2^53]: the quantity decodes, the request
    ends in the assertion's error, and the node is never asked to revert. *)
Lemma revert_large_id_counterexample :
  rpcQuantity (JsString "0x20000000000000") = Some (2 ^ 53) /\
  calls (run (processRequest "evm_revert" [JsString "0x20000000000000"])
           freshStub) = [] /\
  ~ revertPassedThrough (2 ^ 53) freshStub
      (run (processRequest "evm_revert" [JsString "0x20000000000000"])
         freshStub).
Proof.
  split; [reflexivity|]. split; [reflexivity|].
  intros [id [_ passed]].
  assert (E : outcome
                (run (processRequest "evm_revert"
                        [JsString "0x20000000000000"]) freshStub) =
              inl (AssertionError
                     "Number can only safely store up to 53 bits"))
    by reflexivity.
  rewrite passed in E. discriminate E.
Qed.

(** C8. The code on the parameter list [[2]]: [evm_snapshot] is not turned
    down as the other methods turn down an arity mismatch; the node takes a
    snapshot and its id is returned. *)
Lemma snapshot_with_argument_counterexample :
  [JsNumber (asNumber 2)] <> [] /\
  outcome (run (processRequest "evm_snapshot" [JsNumber (asNumber 2)])
             freshStub) = inr (JsString "0x1") /\
  calls (run (processRequest "evm_snapshot" [JsNumber (asNumber 2)])
           freshStub) = [CallTakeSnapshot] /\
  ~ rejectedUnasked
      (run (processRequest "evm_snapshot" [JsNumber (asNumber 2)]) freshStub).
Proof.
  split; [discriminate|]. split; [reflexivity|]. split; [reflexivity|].
  intros [_ unasked]. discriminate unasked.
Qed.


(** * Further properties of the module *)

Section Further.

Context {Node : Type} {_node : HardhatNode Node}.

(** A batch without timestamps, from any log. *)
Lemma exec_mineMultiple_plain (iterations : number) (s : Node)
  (log : list NodeCall) :
  0 < nval iterations ->
  exec (_mineMultipleAction iterations []) (s, log) =
  (inr "0x0",
   (mineAll (repeat 0 (Z.to_nat (nval iterations))) s,
    (log ++ map CallMineEmptyBlock
              (repeat 0 (Z.to_nat (nval iterations))))%list)).
Proof.
  intros pos. unfold _mineMultipleAction. rpc.
  destruct (Z.leb_spec (nval iterations) 0) as [bad|_]; [lia|].
  rpc. rewrite exec_mineBlocks. cbn zeta. rpc.
  pose proof (batch_slots [] (Z.to_nat (nval iterations))) as slots.
  unfold batch in slots. cbn [List.length app] in slots.
  rewrite Nat.sub_0_r in slots.
  assert (zeros : map (fun i : nat => nth i (@nil BN) 0)
                    (seq 0 (Z.to_nat (nval iterations))) =
                  repeat 0 (Z.to_nat (nval iterations)))
    by (apply slots; lia).
  rewrite zeros. reflexivity.
Qed.

(** X1. The [every] scan of [_mineMultipleAction] accepts a list of
    timestamps exactly when the list is strictly increasing. *)
Theorem every_ltNext_iff_strictlyIncreasing (timestampsBN : list BN) :
  every ltNext timestampsBN = true <-> strictlyIncreasing timestampsBN.
Proof. rewrite every_ltNext. apply increasingb_spec. Qed.

Lemma strictlyIncreasing_above_first (x : Z) (l : list Z) :
  strictlyIncreasing (x :: l) -> forall y, In y l -> x < y.
Proof.
  intros inc y member. apply In_nth_error in member as [j at_j].
  apply (inc 0%nat (Datatypes.S j)); [lia|reflexivity|exact at_j].
Qed.

(** X2. [_mineMultipleAction] succeeds exactly when iterations is
    positive, no more timestamps than iterations are given, every given
    timestamp is above the head block's, the timestamps are strictly
    increasing, and each of them is below [2^53] in magnitude. *)
Theorem mineMultiple_succeeds_iff (iterations : number)
  (timestamps : list number) (s : Node) :
  (exists result,
     outcome (run (_mineMultipleAction iterations timestamps) s) =
     inr result) <->
  0 < nval iterations /\
  Z.of_nat (List.length timestamps) <= nval iterations /\
  (forall t, In t timestamps -> headTimestamp s < nval t) /\
  strictlyIncreasing (map nval timestamps) /\
  Forall (fun t => safeInteger (nval t)) timestamps.
Proof.
  rewrite mineMultiple_run. cbn zeta.
  destruct timestamps as [|first rest].
  - destruct (Z.leb_spec (nval iterations) 0) as [nonpos|pos].
    + split; [intros [result H]; discriminate H|]. intros [pos _]. lia.
    + split; [|intros _; eexists; reflexivity]. intros _.
      split; [exact pos|]. split; [simpl; lia|].
      split; [intros t []|]. split; [|constructor].
      apply increasingb_spec. reflexivity.
  - set (timestamps := first :: rest).
    destruct (Z.gtb_spec (Z.of_nat (List.length timestamps))
                (nval iterations)) as [big|fits].
    { split; [intros [result H]; discriminate H|]. intros [_ [fits _]]. lia. }
    destruct (forallb (fun t => isSafeInteger (nval t)) timestamps) eqn:safe;
      cbn [negb].
    2:{ split; [intros [result H]; discriminate H|].
        intros [_ [_ [_ [_ allSafe]]]]. apply forallb_safe in allSafe.
        congruence. }
    apply forallb_safe in safe.
    destruct (Z.leb_spec (nval first) (headTimestamp s)) as [low|above].
    { split;
        [destruct (toNumber (headTimestamp s)); intros [result H];
         discriminate H|].
      intros [_ [_ [above _]]]. specialize (above first (or_introl eq_refl)).
      lia. }
    destruct (increasingb (map nval timestamps)) eqn:inc; cbn [negb].
    2:{ split; [intros [result H]; discriminate H|].
        intros [_ [_ [_ [increasing _]]]].
        apply increasingb_spec in increasing. congruence. }
    apply increasingb_spec in inc.
    split; [|intros _; eexists; reflexivity]. intros _.
    split; [subst timestamps; cbn [List.length] in fits; lia|].
    split; [exact fits|]. split; [|split; [exact inc | exact safe]].
    intros t [<-|later]; [exact above|].
    pose proof (strictlyIncreasing_above_first _ _ inc (nval t)
                  (in_map nval _ _ later)). lia.
Qed.

(** X3. The order of the checks in [_mineMultipleAction].  With
    timestamps given, too many of them is reported first and before the
    head block is read; the complaint about a non-positive iterations
    number is raised only when no timestamps are given. *)
Theorem mineMultiple_error_precedence (iterations : number)
  (timestamps : list number) (s : Node) :
  let r := run (_mineMultipleAction iterations timestamps) s in
  (timestamps <> [] ->
   Z.of_nat (List.length timestamps) > nval iterations ->
   r = (inl (InvalidInputError (sizeMessage timestamps iterations)),
        (s, []))) /\
  (outcome r =
     inl (InvalidInputError
            "Invalid iterations number, it must be greater than 0") <->
   timestamps = [] /\ nval iterations <= 0).
Proof.
  cbn zeta. rewrite mineMultiple_run. cbn zeta.
  destruct timestamps as [|first rest].
  - split; [intros bad; now contradiction bad|].
    destruct (Z.leb_spec (nval iterations) 0) as [nonpos|pos].
    + split; [now split | reflexivity].
    + split; [intros H; discriminate H | intros [_ nonpos]; lia].
  - set (timestamps := first :: rest).
    destruct (Z.gtb_spec (Z.of_nat (List.length timestamps))
                (nval iterations)) as [big|fits].
    { split; [reflexivity|].
      split; [intros H; discriminate H | intros [H _]; discriminate H]. }
    split; [intros _ big; lia|].
    split; [|intros [H _]; discriminate H].
    destruct (forallb (fun t => isSafeInteger (nval t)) timestamps);
      cbn [negb]; [|intros H; discriminate H].
    destruct (nval first <=? headTimestamp s);
      [unfold toNumber; destruct (isSafeInteger (headTimestamp s));
       intros H; discriminate H|].
    destruct (increasingb (map nval timestamps)); cbn [negb];
      intros H; discriminate H.
Qed.

(** X4. Mining one block at a nonzero timestamp below [2^53] in
    magnitude is the batch of one: [_mineAction t] and
    [_mineMultipleAction 1 [t]] ask the same of the node and leave it in
    the same state; they return the same when [t] is above the head block's
    timestamp, and both fail otherwise, with [InvalidInputError] when the
    head block's timestamp is below [2^53]. *)
Theorem mine_is_batch_of_one (t : number) (s : Node) :
  nval t <> 0 ->
  safeInteger (nval t) ->
  let single := run (_mineAction t) s in
  let plural := run (_mineMultipleAction (asNumber 1) [t]) s in
  calls single = calls plural /\
  finalState single = finalState plural /\
  (headTimestamp s < nval t -> single = plural) /\
  (nval t <= headTimestamp s ->
   (exists e, outcome single = inl e) /\
   (exists e, outcome plural = inl e) /\
   (safeInteger (headTimestamp s) ->
    isInvalidInput (outcome single) /\ isInvalidInput (outcome plural))).
Proof.
  intros nonzero safe. cbn zeta. rewrite mine_run, mineMultiple_run.
  cbn zeta.
  destruct (Z.eqb_spec (nval t) 0) as [z|_]; [contradiction|].
  change (Z.of_nat (List.length [t]) >? nval (asNumber 1)) with false.
  cbv iota. cbn [forallb]. rewrite (proj2 (isSafeInteger_spec _) safe).
  cbn [andb negb].
  set (head := headTimestamp s).
  destruct (Z.leb_spec (nval t - head) 0) as [low|above];
    destruct (Z.leb_spec (nval t) head) as [low'|above']; try lia.
  - split; [reflexivity|]. split; [reflexivity|]. split; [intros; lia|].
    intros _.
    split; [destruct (toNumber head); eexists; reflexivity|].
    split; [destruct (toNumber head); eexists; reflexivity|].
    intros headSafe. rewrite (toNumber_safe _ headSafe).
    split; eexists; reflexivity.
  - change (increasingb (map nval [t])) with true. cbn [negb].
    repeat split; intros; lia.
Qed.

(** X5. [evm_mine] and [evm_setNextBlockTimestamp] apply one and the same
    timestamp check: for a nonzero timestamp either action fails exactly
    when the other does, and with the same error. *)
Theorem mine_and_setNextBlockTimestamp_same_check (t : number) (s : Node)
  (e : RpcError) :
  nval t <> 0 ->
  (outcome (run (_mineAction t) s) = inl e <->
   outcome (run (_setNextBlockTimestampAction t) s) = inl e).
Proof.
  intros nonzero. rewrite mine_run, setNextBlockTimestamp_run. cbn zeta.
  destruct (Z.eqb_spec (nval t) 0) as [z|_]; [contradiction|].
  destruct (isSafeInteger (nval t)); [|reflexivity].
  destruct (nval t - headTimestamp s <=? 0).
  - reflexivity.
  - split; intros H; discriminate H.
Qed.

Lemma mineAll_app (ts ts' : list BN) (s : Node) :
  mineAll (ts ++ ts') s = mineAll ts' (mineAll ts s).
Proof. apply fold_left_app. Qed.

Lemma batch_extend (timestamps : list number) (n m : nat) :
  (List.length timestamps <= n)%nat ->
  (batch timestamps n ++ repeat 0 m)%list = batch timestamps (n + m).
Proof.
  intros fits. unfold batch. rewrite <- app_assoc, <- repeat_app.
  do 2 f_equal. lia.
Qed.

(** X6. Batches compose.  A valid batch of [n] blocks followed by a batch
    of [m] blocks without timestamps asks the node exactly what the single
    batch of [n + m] blocks with the same timestamps asks, with the same
    result and the same final state. *)
Theorem mineMultiple_splits (n m total : number) (timestamps : list number)
  (s : Node) :
  0 < nval n -> 0 < nval m -> nval total = nval n + nval m ->
  Z.of_nat (List.length timestamps) <= nval n ->
  (forall first, hd_error timestamps = Some first ->
                 headTimestamp s < nval first) ->
  strictlyIncreasing (map nval timestamps) ->
  run (_ <- _mineMultipleAction n timestamps ;; _mineMultipleAction m []) s =
  run (_mineMultipleAction total timestamps) s.
Proof.
  intros posn posm sum fits above inc.
  assert (path : forall iterations : number,
            nval n <= nval iterations ->
            run (_mineMultipleAction iterations timestamps) s =
            if forallb (fun t => isSafeInteger (nval t)) timestamps then
              (inr "0x0",
               (mineAll (batch timestamps (Z.to_nat (nval iterations)))
                  (match timestamps with
                   | [] => s | _ => snd (getLatestBlock s) end),
                (match timestamps with
                 | [] => [] | _ => [CallGetLatestBlock] end ++
                 map CallMineEmptyBlock
                   (batch timestamps (Z.to_nat (nval iterations))))%list))
            else (inl (AssertionError "Assertion failed"), (s, []))).
  { intros iterations enough. rewrite mineMultiple_run. cbn zeta.
    destruct timestamps as [|first rest].
    - destruct (Z.leb_spec (nval iterations) 0) as [bad|_];
        [lia|reflexivity].
    - set (timestamps := first :: rest) in *.
      destruct (Z.gtb_spec (Z.of_nat (List.length timestamps))
                  (nval iterations)) as [bad|_]; [lia|].
      destruct (forallb (fun t => isSafeInteger (nval t)) timestamps);
        cbn [negb]; [|reflexivity].
      specialize (above first eq_refl).
      destruct (Z.leb_spec (nval first) (headTimestamp s)) as [bad|_]; [lia|].
      apply increasingb_spec in inc. rewrite inc. reflexivity. }
  rewrite (path total) by lia.
  unfold run at 1. rewrite exec_bind.
  change (exec (_mineMultipleAction n timestamps) (s, []))
    with (run (_mineMultipleAction n timestamps) s).
  rewrite (path n) by lia.
  destruct (forallb (fun t => isSafeInteger (nval t)) timestamps);
    [|reflexivity].
  cbv beta iota.
  rewrite exec_mineMultiple_plain by exact posm.
  rewrite <- mineAll_app, <- app_assoc, <- map_app.
  rewrite batch_extend by lia.
  replace (Z.to_nat (nval n) + Z.to_nat (nval m))%nat
    with (Z.to_nat (nval total)) by lia.
  reflexivity.
Qed.

(** X7. Parameters are validated before the node is touched: when a
    method's parameter check throws, the request ends in that very error,
    the node is in the state it was in and no node operation was called. *)
Theorem invalid_params_never_reach_node (params : list JsValue) (s : Node)
  (e : RpcError) :
  (_increaseTimeParams params = inl e ->
   run (processRequest "evm_increaseTime" params) s = (inl e, (s, []))) /\
  (_setNextBlockTimestampParams params = inl e ->
   run (processRequest "evm_setNextBlockTimestamp" params) s =
   (inl e, (s, []))) /\
  (_mineParams params = inl e ->
   run (processRequest "evm_mine" params) s = (inl e, (s, []))) /\
  (_mineMultipleParams params = inl e ->
   run (processRequest "evm_mineMultiple" params) s = (inl e, (s, []))) /\
  (_revertParams params = inl e ->
   run (processRequest "evm_revert" params) s = (inl e, (s, []))).
Proof.
  repeat split; intros invalid; unfold run, processRequest;
    cbn [String.eqb Ascii.eqb Bool.eqb]; rewrite invalid; now rpc.
Qed.

(** X9. [evm_mineMultiple] with the iterations alone: the timestamps
    default to the empty list, so a positive [n] makes the node mine
    exactly [n] blocks with the sentinel zero without reading the head
    block, and [n <= 0] is refused before any node call. *)
Theorem mineMultiple_request_with_iterations_only (n : number) (s : Node) :
  (0 < nval n ->
   run (processRequest "evm_mineMultiple" [JsNumber n]) s =
   (inr (JsString "0x0"),
    (mineAll (repeat 0 (Z.to_nat (nval n))) s,
     map CallMineEmptyBlock (repeat 0 (Z.to_nat (nval n)))))) /\
  (nval n <= 0 ->
   run (processRequest "evm_mineMultiple" [JsNumber n]) s =
   (inl (InvalidInputError
           "Invalid iterations number, it must be greater than 0"),
    (s, []))).
Proof.
  assert (E : run (processRequest "evm_mineMultiple" [JsNumber n]) s =
              match run (_mineMultipleAction n []) s with
              | (inl e, st) => (inl e, st)
              | (inr result, st) => (inr (JsString result), st)
              end).
  { unfold run, processRequest. cbn [String.eqb Ascii.eqb Bool.eqb].
    unfold _mineMultipleParams, validateParams2, t_number, t_Array.
    cbn [List.length Nat.eqb orb app decodeAll]. rpc.
    destruct (exec (_mineMultipleAction n []) (s, [])) as [[e|result] st];
      now rpc. }
  rewrite E. unfold run.
  split; intros sign.
  - now rewrite exec_mineMultiple_plain.
  - change (exec (_mineMultipleAction n []) (s, []))
      with (run (_mineMultipleAction n []) s).
    rewrite mineMultiple_run. cbn zeta.
    destruct (Z.leb_spec (nval n) 0) as [_|pos]; [reflexivity|lia].
Qed.

(** X10. Time increases add up.  On a node whose offset is cumulative,
    [evm_increaseTime] with [a] and then with [b], both below [2^53] in
    magnitude, returns, the second time, the offset before the two
    requests plus [a + b], in decimal. *)
Theorem increaseTime_twice (a b : number) (s : Node) :
  cumulativeOffset Node ->
  safeInteger (nval a) -> safeInteger (nval b) ->
  outcome (run (_ <- _increaseTimeAction a ;; _increaseTimeAction b) s) =
  inr (decimal (timeIncrement s + nval a + nval b)).
Proof.
  intros [add read] safea safeb. unfold run, outcome.
  rewrite exec_bind, exec_increaseTime.
  rewrite (proj2 (isSafeInteger_spec _) safea). cbv beta iota.
  rewrite exec_increaseTime, (proj2 (isSafeInteger_spec _) safeb).
  cbn [fst]. now rewrite add, read, add.
Qed.

End Further.

(** ** The snapshot id on the wire *)

Lemma parseHex_string_of_uint (d : Hexadecimal.uint) (acc : positive) :
  parseHex (Z.pos acc) (HexadecimalString.NilEmpty.string_of_uint d) =
  Some (Z.pos (Pos.of_hex_uint_acc d acc)).
Proof.
  revert acc.
  induction d as [|d IH|d IH|d IH|d IH|d IH|d IH|d IH|d IH|d IH|d IH|d IH
                  |d IH|d IH|d IH|d IH|d IH]; intros acc;
    cbn [HexadecimalString.NilEmpty.string_of_uint parseHex
         Pos.of_hex_uint_acc];
    [reflexivity|..];
    match goal with
    | |- context [hexDigit ?c] =>
        let v := eval vm_compute in (hexDigit c) in
        change (hexDigit c) with v
    end;
    cbv iota; rewrite <- IH; f_equal; lia.
Qed.

Lemma nzhead_not_zero_headed (d l : Hexadecimal.uint) :
  Hexadecimal.nzhead d <> Hexadecimal.D0 l.
Proof. induction d; cbn [Hexadecimal.nzhead]; congruence. Qed.

Lemma to_hex_uint_head (p : positive) (l : Hexadecimal.uint) :
  Pos.to_hex_uint p <> Hexadecimal.D0 l.
Proof.
  intros zero_headed.
  pose proof (HexadecimalPos.Unsigned.of_to p) as value.
  pose proof (HexadecimalPos.Unsigned.to_of (Pos.to_hex_uint p)) as normal.
  rewrite value in normal. cbn [N.to_hex_uint] in normal.
  rewrite zero_headed in normal, value.
  unfold Hexadecimal.unorm in normal.
  cbn [Hexadecimal.nzhead] in normal.
  destruct (Hexadecimal.nzhead l) eqn:head; try discriminate normal.
  - injection normal as ->. discriminate value.
  - now apply nzhead_not_zero_headed in head.
Qed.

(** A non-negative number, written as a hex quantity, decodes to itself. *)
Lemma rpcQuantity_numberToRpcQuantity (n : number) :
  0 <= nval n ->
  rpcQuantity (JsString (numberToRpcQuantity n)) = Some (nval n).
Proof.
  intros nonneg. unfold numberToRpcQuantity, hexadecimal.
  destruct (nval n) as [|p|p]; [reflexivity| |lia].
  cbn [Z.to_hex_int HexadecimalString.NilZero.string_of_int].
  pose proof (HexadecimalPos.Unsigned.of_to p) as value.
  pose proof (to_hex_uint_head p) as head.
  destruct (Pos.to_hex_uint p) as [|l|l|l|l|l|l|l|l|l|l|l|l|l|l|l|l];
    [discriminate value | now contradiction (head l) |..];
    cbn [Pos.of_hex_uint] in value; injection value as <-;
    cbn [HexadecimalString.NilZero.string_of_uint
         HexadecimalString.NilEmpty.string_of_uint append rpcQuantity];
    cbn [parseHex];
    match goal with
    | |- context [hexDigit ?c] =>
        let v := eval vm_compute in (hexDigit c) in
        change (hexDigit c) with v
    end;
    cbv iota; cbn [Z.mul Z.add]; apply parseHex_string_of_uint.
Qed.

Section Wire.

Context {Node : Type} {_node : HardhatNode Node}.

(** X11. The id [evm_snapshot] returns is the id [evm_revert] restores:
    when the node issues a non-negative snapshot id below [2^53], handing
    the returned quantity to [evm_revert] makes the module ask the node to
    restore that very id, and the node's answer is the result. *)
Theorem snapshot_then_revert (s : Node) :
  0 <= nval (fst (takeSnapshot s)) ->
  nval (fst (takeSnapshot s)) < SAFE_BOUND ->
  let id := fst (takeSnapshot s) in
  let s1 := snd (takeSnapshot s) in
  run (taken <- processRequest "evm_snapshot" [] ;;
       processRequest "evm_revert" [taken]) s =
  (inr (JsBoolean (fst (revertToSnapshot id s1))),
   (snd (revertToSnapshot id s1),
    [CallTakeSnapshot; CallRevertToSnapshot id])).
Proof.
  intros nonneg small.
  assert (safe : safeInteger (nval (fst (takeSnapshot s))))
    by (unfold safeInteger; lia).
  intros id s1. unfold run. rewrite exec_bind.
  unfold processRequest at 1. cbn [String.eqb Ascii.eqb Bool.eqb].
  unfold _snapshotParams, _snapshotAction. rpc. fold id s1.
  unfold processRequest. cbn [String.eqb Ascii.eqb Bool.eqb].
  unfold _revertParams, validateParams1.
  rewrite rpcQuantity_numberToRpcQuantity by exact nonneg.
  rpc. unfold _revertAction.
  rewrite toNumber_safe by exact safe.
  rpc. now destruct id.
Qed.

End Wire.

(** ** The further properties on the stub node *)

Lemma mine_is_batch_of_one_witness :
  nval (asNumber 101) <> 0 /\
  run (_mineAction (asNumber 101)) freshStub =
  run (_mineMultipleAction (asNumber 1) [asNumber 101]) freshStub.
Proof.
  assert (nonzero : nval (asNumber 101) <> 0) by discriminate.
  assert (safe : safeInteger (nval (asNumber 101))) by reflexivity.
  split; [exact nonzero|].
  destruct (mine_is_batch_of_one (asNumber 101) freshStub nonzero safe)
    as [_ [_ [same _]]].
  apply same. reflexivity.
Defined.

Lemma mine_and_setNextBlockTimestamp_same_check_witness :
  nval (asNumber 50) <> 0 /\
  (outcome (run (_mineAction (asNumber 50)) freshStub) =
   inl (InvalidInputError
          "Timestamp 50 is lower than previous block's timestamp 100") <->
   outcome (run (_setNextBlockTimestampAction (asNumber 50)) freshStub) =
   inl (InvalidInputError
          "Timestamp 50 is lower than previous block's timestamp 100")).
Proof.
  assert (nonzero : nval (asNumber 50) <> 0) by discriminate.
  split; [exact nonzero|].
  exact (mine_and_setNextBlockTimestamp_same_check (asNumber 50) freshStub
           _ nonzero).
Defined.

Lemma mineMultiple_splits_witness :
  run (_ <- _mineMultipleAction (asNumber 2) [asNumber 101; asNumber 105] ;;
       _mineMultipleAction (asNumber 1) []) freshStub =
  run (_mineMultipleAction (asNumber 3) [asNumber 101; asNumber 105])
    freshStub.
Proof.
  apply (mineMultiple_splits (asNumber 2) (asNumber 1) (asNumber 3)).
  - reflexivity.
  - reflexivity.
  - reflexivity.
  - simpl. lia.
  - intros first [= <-]. reflexivity.
  - apply increasingb_spec. reflexivity.
Defined.

Lemma increaseTime_twice_witness :
  outcome (run (_ <- _increaseTimeAction (asNumber 7) ;;
                _increaseTimeAction (asNumber (-3))) freshStub) =
  inr "4".
Proof.
  assert (safe7 : safeInteger (nval (asNumber 7))) by reflexivity.
  assert (safe3 : safeInteger (nval (asNumber (-3)))) by reflexivity.
  exact (increaseTime_twice (asNumber 7) (asNumber (-3)) freshStub
           stub_cumulativeOffset safe7 safe3).
Defined.

Lemma snapshot_then_revert_witness :
  0 <= nval (fst (takeSnapshot freshStub)) /\
  run (taken <- processRequest "evm_snapshot" [] ;;
       processRequest "evm_revert" [taken]) freshStub =
  (inr (JsBoolean true),
   (freshStub, [CallTakeSnapshot; CallRevertToSnapshot (asNumber 1)])).
Proof.
  assert (nonneg : 0 <= nval (fst (takeSnapshot freshStub)))
    by (vm_compute; discriminate).
  assert (small : nval (fst (takeSnapshot freshStub)) < SAFE_BOUND)
    by reflexivity.
  split; [exact nonneg|].
  exact (snapshot_then_revert freshStub nonneg small).
Defined.
